(** * OutlineAdmin: the modal components of [src/components/modals]

    A shallow embedding of [MessageModal] and [DynamicAccessKeyFormModal]
    (message-modal.tsx).  React state becomes a record, every [useEffect]
    becomes a function guarded by its dependency list, the [async] submit
    handler is written in a small state-and-exception monad, and the
    libraries the components call (uuid, slugify, moment, the server actions,
    the tables of [@/src/core]) are parameters. *)

From Stdlib Require Import String Ascii List ZArith Bool Lia.
Import ListNotations.
Open Scope string_scope.

(** ** JavaScript values *)

(** A value of type [A | null | undefined]. *)
Inductive js (A : Type) : Type :=
| undefined
| null
| val (a : A).
Arguments undefined {A}.
Arguments null {A}.
Arguments val {A} a.

(** Narrowing by a truthiness test on [string | null | undefined]: only a
    non-empty string passes [if (v)], and is a [string] in the branch. *)
Definition narrow (v : js string) : option string :=
  match v with
  | val s => if s =? "" then None else Some s
  | _ => None
  end.

Definition truthy (v : js string) : bool :=
  match narrow v with
  | Some _ => true
  | None => false
  end.

(** [v == null]: the test behind [??] and [??=]. *)
Definition nullish {A} (v : js A) : bool :=
  match v with
  | val _ => false
  | _ => true
  end.

(** [Date | null] and [string | null] of the database client, as a
    JavaScript value. *)
Definition js_of_option {A} (o : option A) : js A :=
  match o with
  | Some a => val a
  | None => null
  end.

(** [x ??= d] *)
Definition nullish_assign {A} (x : js A) (d : A) : js A :=
  if nullish x then val d else x.

(** [Object.is] on [string | null | undefined], the comparison React applies
    to dependency lists and to state updates. *)
Definition js_eqb (a b : js string) : bool :=
  match a, b with
  | undefined, undefined => true
  | null, null => true
  | val x, val y => x =? y
  | _, _ => false
  end.

(** [s.length] of a JavaScript string: the number of UTF-16 code units of
    the text, read off its UTF-8 bytes.  A continuation byte adds nothing,
    the lead byte of a four-byte sequence stands for a surrogate pair. *)
Definition utf16_units (c : ascii) : nat :=
  let n := nat_of_ascii c in
  if Nat.ltb n 128 then 1
  else if Nat.ltb n 192 then 0
  else if Nat.ltb n 240 then 1
  else 2.

Fixpoint utf16_length (s : string) : nat :=
  match s with
  | EmptyString => 0
  | String c r => utf16_units c + utf16_length r
  end.

(** What a [throw] carries: [null], [undefined], or a value whose
    [toString()] yields [repr]. *)
Inductive Thrown : Type :=
| thrown_null
| thrown_undefined
| thrown_value (repr : string).

(** ** The disclosure (useDisclosure of the parent) *)

Module Disclosure.

(** The callbacks of [UseDisclosureReturn] the modals hand out. *)
Inductive Handler : Type := onOpen | onClose | onOpenChange.

(** What a callback does to [isOpen]; [onOpenChange] closes an open
    disclosure and opens a closed one. *)
Definition call (h : Handler) (isOpen : bool) : bool :=
  match h with
  | onOpen => true
  | onClose => false
  | onOpenChange => negb isOpen
  end.

End Disclosure.

(** ** MessageModal *)

Module MessageModal.

Record Props : Type := {
  title : js string;
  body : js string;
  isDismissable : option bool          (* [None]: the prop is omitted *)
}.

(** The props [MessageModal] passes to the [Modal] of the UI kit. *)
Record ModalProps : Type := {
  hideCloseButton : bool;
  modal_isDismissable : bool;
  isKeyboardDismissDisabled : bool;
  isOpen : bool;
  onOpenChange : Disclosure.Handler
}.

Record View : Type := {
  modal : ModalProps;
  header : option string;
  content : option string;
  okButton_onPress : Disclosure.Handler
}.

Definition MessageModal (isOpen_ : bool) (p : Props) : View :=
  let isDismissable := match isDismissable p with Some b => b | None => false end in
  {| modal := {| hideCloseButton := negb isDismissable;
                 modal_isDismissable := isDismissable;
                 isKeyboardDismissDisabled := negb isDismissable;
                 isOpen := isOpen_;
                 onOpenChange := Disclosure.onOpenChange |};
     header := narrow (title p);
     content := narrow (body p);
     okButton_onPress := Disclosure.onClose |}.

(** The controls a user finds in the dialog. *)
Inductive Control : Type := CloseButton | EscapeKey | OverlayPress | OkButton.

(** The UI kit's documented [Modal] props: the close button exists unless
    [hideCloseButton], Escape dismisses unless [isKeyboardDismissDisabled],
    a press on the overlay dismisses when [isDismissable]; each of these
    reports through [onOpenChange].  The footer button calls its own
    handler. *)
Definition press (v : View) (c : Control) : option Disclosure.Handler :=
  match c with
  | CloseButton => if hideCloseButton (modal v) then None else Some (onOpenChange (modal v))
  | EscapeKey => if isKeyboardDismissDisabled (modal v) then None else Some (onOpenChange (modal v))
  | OverlayPress => if modal_isDismissable (modal v) then Some (onOpenChange (modal v)) else None
  | OkButton => Some (okButton_onPress v)
  end.

(** [isOpen] after the user operates control [c] of the rendered dialog. *)
Definition after (isOpen_ : bool) (p : Props) (c : Control) : bool :=
  match press (MessageModal isOpen_ p) c with
  | Some h => Disclosure.call h isOpen_
  | None => isOpen_
  end.

Definition closes (p : Props) (c : Control) : bool := negb (after true p c).

End MessageModal.

(** ** DynamicAccessKeyFormModal: data *)

(** [LoadBalancerAlgorithm] of [@/src/core/definitions]. *)
Inductive LoadBalancerAlgorithm : Type :=
| RandomKeyOnEachConnection
| RandomServerKeyOnEachConnection
| UserIpAddress.

(** An entry of the [AccessKeyPrefixes] table. *)
Record Port : Type := { number : Z; description : string }.
Record AccessKeyPrefix : Type := {
  prefix_type : string;
  recommendedPorts : list Port
}.

(** [NewDynamicAccessKeyRequest | EditDynamicAccessKeyRequest]: the record
    the form library manages, and the payload of the server actions. *)
Record Request (Date : Type) : Type := {
  id : js Z;
  name : js string;
  path : js string;
  loadBalancerAlgorithm : js string;
  expiresAt : js Date;
  prefix : js string
}.
Arguments id {Date}.
Arguments name {Date}.
Arguments path {Date}.
Arguments loadBalancerAlgorithm {Date}.
Arguments expiresAt {Date}.
Arguments prefix {Date}.

(** The columns of the database client's [DynamicAccessKey] the component
    reads. *)
Record DynamicAccessKey (Date : Type) : Type := {
  key_id : Z;
  key_name : string;
  key_path : string;
  key_loadBalancerAlgorithm : option string;
  key_expiresAt : option Date;
  key_prefix : option string
}.
Arguments key_id {Date}.
Arguments key_name {Date}.
Arguments key_path {Date}.
Arguments key_loadBalancerAlgorithm {Date}.
Arguments key_expiresAt {Date}.
Arguments key_prefix {Date}.

(** What the component imports: moment, slugify, uuid, the two server
    actions (they run against a server and either return or throw), and the
    constants of [@/src/core]; and what the [onSuccess] callback of the
    parent does when it is called: like the actions it returns or throws. *)
Record Externals : Type := {
  Date : Type;
  moment_toDate : string -> Date;       (* moment(s, "YYYY-MM-DD").toDate() *)
  moment_format : Date -> string;       (* moment(d).format("YYYY-MM-DD") *)
  slugify : string -> string;
  Rng : Type;
  uuidv4 : Rng -> string * Rng;
  Server : Type;
  createDynamicAccessKey : Request Date -> Server -> option Thrown * Server;
  updateDynamicAccessKey : Request Date -> Server -> option Thrown * Server;
  onSuccess_callback : Server -> option Thrown * Server;
  LoadBalancerAlgorithm_value : LoadBalancerAlgorithm -> string;
  AccessKeyPrefixType_None : string;
  AccessKeyPrefixes : list AccessKeyPrefix
}.

Section DynamicAccessKeyFormModal.

Variable X : Externals.

Local Abbreviation Req := (Request (Date X)).
Local Abbreviation Key := (DynamicAccessKey (Date X)).
Local Abbreviation LB := (LoadBalancerAlgorithm_value X).

(** *** Field assignment on the form record *)

Definition set_id (d : Req) (v : js Z) : Req :=
  {| id := v; name := name d; path := path d;
     loadBalancerAlgorithm := loadBalancerAlgorithm d;
     expiresAt := expiresAt d; prefix := prefix d |}.

Definition set_name (d : Req) (v : js string) : Req :=
  {| id := id d; name := v; path := path d;
     loadBalancerAlgorithm := loadBalancerAlgorithm d;
     expiresAt := expiresAt d; prefix := prefix d |}.

Definition set_path (d : Req) (v : js string) : Req :=
  {| id := id d; name := name d; path := v;
     loadBalancerAlgorithm := loadBalancerAlgorithm d;
     expiresAt := expiresAt d; prefix := prefix d |}.

Definition set_loadBalancerAlgorithm (d : Req) (v : js string) : Req :=
  {| id := id d; name := name d; path := path d;
     loadBalancerAlgorithm := v;
     expiresAt := expiresAt d; prefix := prefix d |}.

Definition set_expiresAt (d : Req) (v : js (Date X)) : Req :=
  {| id := id d; name := name d; path := path d;
     loadBalancerAlgorithm := loadBalancerAlgorithm d;
     expiresAt := v; prefix := prefix d |}.

Definition set_prefix (d : Req) (v : js string) : Req :=
  {| id := id d; name := name d; path := path d;
     loadBalancerAlgorithm := loadBalancerAlgorithm d;
     expiresAt := expiresAt d; prefix := v |}.

(** [useForm()] without default values. *)
Definition useForm : Req :=
  {| id := undefined; name := undefined; path := undefined;
     loadBalancerAlgorithm := undefined; expiresAt := undefined;
     prefix := undefined |}.

(** *** Component, props and the surrounding system *)

(** The four [useState] cells and the form record. *)
Record Component : Type := {
  serverError : js string;
  selectedExpirationDate : js string;
  selectedLoadBalancer : js string;
  selectedPrefix : js string;
  form : Req
}.

Record Props : Type := {
  dynamicAccessKeyData : option Key;
  onSuccess : bool                     (* is the callback provided *)
}.

(** The dependency lists of the four effects, in source order. *)
Record Deps : Type := {
  dep_selectedExpirationDate : js string;
  dep_selectedLoadBalancer : js string;
  dep_selectedPrefix : js string;
  dep_isOpen : bool
}.

(** Calls that leave the component, oldest first. *)
Inductive Call : Type :=
| call_updateDynamicAccessKey (payload : Req)
| call_createDynamicAccessKey (payload : Req)
| call_onClose
| call_onSuccess.

(** What the server action behind a call answers on server state [v]:
    [Some e] when it throws [e]. *)
Definition response (c : Call) (v : Server X) : option Thrown :=
  match c with
  | call_updateDynamicAccessKey payload => fst (updateDynamicAccessKey X payload v)
  | call_createDynamicAccessKey payload => fst (createDynamicAccessKey X payload v)
  | _ => None
  end.

(** Is a call one of the two server actions. *)
Definition is_action (c : Call) : bool :=
  match c with
  | call_updateDynamicAccessKey _ | call_createDynamicAccessKey _ => true
  | _ => false
  end.

Record Sys : Type := {
  component : Component;
  props : Props;
  isOpen : bool;                       (* disclosure.isOpen *)
  committed : option Deps;             (* dependencies of the last commit *)
  server : Server X;                   (* the world the actions and the callback run in *)
  rng : Rng X;
  calls : list Call;
  render_threw : option Thrown         (* the exception a render failed with *)
}.

Definition with_component (s : Sys) (c : Component) : Sys :=
  {| component := c; props := props s; isOpen := isOpen s;
     committed := committed s; server := server s; rng := rng s;
     calls := calls s; render_threw := render_threw s |}.

Definition with_props (s : Sys) (p : Props) : Sys :=
  {| component := component s; props := p; isOpen := isOpen s;
     committed := committed s; server := server s; rng := rng s;
     calls := calls s; render_threw := render_threw s |}.

Definition with_isOpen (s : Sys) (o : bool) : Sys :=
  {| component := component s; props := props s; isOpen := o;
     committed := committed s; server := server s; rng := rng s;
     calls := calls s; render_threw := render_threw s |}.

Definition with_committed (s : Sys) (d : option Deps) : Sys :=
  {| component := component s; props := props s; isOpen := isOpen s;
     committed := d; server := server s; rng := rng s;
     calls := calls s; render_threw := render_threw s |}.

Definition with_server (s : Sys) (v : Server X) : Sys :=
  {| component := component s; props := props s; isOpen := isOpen s;
     committed := committed s; server := v; rng := rng s;
     calls := calls s; render_threw := render_threw s |}.

Definition with_rng (s : Sys) (r : Rng X) : Sys :=
  {| component := component s; props := props s; isOpen := isOpen s;
     committed := committed s; server := server s; rng := r;
     calls := calls s; render_threw := render_threw s |}.

Definition with_render_threw (s : Sys) (e : option Thrown) : Sys :=
  {| component := component s; props := props s; isOpen := isOpen s;
     committed := committed s; server := server s; rng := rng s;
     calls := calls s; render_threw := e |}.

Definition log (s : Sys) (c : Call) : Sys :=
  {| component := component s; props := props s; isOpen := isOpen s;
     committed := committed s; server := server s; rng := rng s;
     calls := calls s ++ [c]; render_threw := render_threw s |}.

Definition setServerError (c : Component) (v : js string) : Component :=
  {| serverError := v;
     selectedExpirationDate := selectedExpirationDate c;
     selectedLoadBalancer := selectedLoadBalancer c;
     selectedPrefix := selectedPrefix c; form := form c |}.

Definition setSelectedExpirationDate (c : Component) (v : js string) : Component :=
  {| serverError := serverError c;
     selectedExpirationDate := v;
     selectedLoadBalancer := selectedLoadBalancer c;
     selectedPrefix := selectedPrefix c; form := form c |}.

Definition setSelectedLoadBalancer (c : Component) (v : js string) : Component :=
  {| serverError := serverError c;
     selectedExpirationDate := selectedExpirationDate c;
     selectedLoadBalancer := v;
     selectedPrefix := selectedPrefix c; form := form c |}.

Definition setSelectedPrefix (c : Component) (v : js string) : Component :=
  {| serverError := serverError c;
     selectedExpirationDate := selectedExpirationDate c;
     selectedLoadBalancer := selectedLoadBalancer c;
     selectedPrefix := v; form := form c |}.

Definition with_form (c : Component) (f : Req) : Component :=
  {| serverError := serverError c;
     selectedExpirationDate := selectedExpirationDate c;
     selectedLoadBalancer := selectedLoadBalancer c;
     selectedPrefix := selectedPrefix c; form := f |}.

(** *** The monad of the event handlers

    A handler runs on the system state and either returns or throws. *)

Definition M (A : Type) : Type := Sys -> (Thrown + A) * Sys.

Definition ret {A} (a : A) : M A := fun s => (inr a, s).

Definition bind {A B} (m : M A) (k : A -> M B) : M B :=
  fun s =>
    match m s with
    | (inr a, s') => k a s'
    | (inl e, s') => (inl e, s')
    end.

Definition throw {A} (e : Thrown) : M A := fun s => (inl e, s).

(** [try { body } catch (error) { handler }] *)
Definition try_catch {A} (body : M A) (handler : Thrown -> M A) : M A :=
  fun s =>
    match body s with
    | (inr a, s') => (inr a, s')
    | (inl e, s') => handler e s'
    end.

Definition get : M Sys := fun s => (inr s, s).

Definition modify (f : Sys -> Sys) : M unit := fun s => (inr tt, f s).

Local Notation "x <- m ;; k" := (bind m (fun x => k))
  (at level 61, m at next level, right associativity).
Local Notation "m ;; k" := (bind m (fun _ => k))
  (at level 61, right associativity).

(** [setServerError(() => ...)]: the call queues the updater and returns;
    React runs the updater in the render that follows the handler.  What
    the updater returns becomes the state.  An updater that throws makes
    that render fail: React then discards the component, while the model
    records the exception and keeps the state, so that what holds of every
    reachable state covers the states before such a failure. *)
Definition do_setServerError (updater : Thrown + js string) : M unit :=
  modify (fun s =>
            match updater with
            | inr v => with_component s (setServerError (component s) v)
            | inl e => with_render_threw s (Some e)
            end).

(** [uuidv4()] *)
Definition do_uuidv4 : M string :=
  s <- get ;;
  let (u, r) := uuidv4 X (rng s) in
  modify (fun s => with_rng s r) ;;
  ret u.

(** [await updateDynamicAccessKey(payload)] *)
Definition await_updateDynamicAccessKey (payload : Req) : M unit :=
  modify (fun s => log s (call_updateDynamicAccessKey payload)) ;;
  s <- get ;;
  let (r, v) := updateDynamicAccessKey X payload (server s) in
  modify (fun s => with_server s v) ;;
  match r with
  | Some e => throw e
  | None => ret tt
  end.

(** [await createDynamicAccessKey(payload)] *)
Definition await_createDynamicAccessKey (payload : Req) : M unit :=
  modify (fun s => log s (call_createDynamicAccessKey payload)) ;;
  s <- get ;;
  let (r, v) := createDynamicAccessKey X payload (server s) in
  modify (fun s => with_server s v) ;;
  match r with
  | Some e => throw e
  | None => ret tt
  end.

(** [disclosure.onClose()] *)
Definition disclosure_onClose : M unit :=
  modify (fun s => log (with_isOpen s (Disclosure.call Disclosure.onClose (isOpen s)))
                       call_onClose).

(** [onSuccess()] *)
Definition do_onSuccess : M unit :=
  modify (fun s => log s call_onSuccess) ;;
  s <- get ;;
  let (r, v) := onSuccess_callback X (server s) in
  modify (fun s => with_server s v) ;;
  match r with
  | Some e => throw e
  | None => ret tt
  end.

(** [(error as object).toString()]: a property access on [null] or
    [undefined] throws a TypeError. *)
Definition toString (error : Thrown) : Thrown + string :=
  match error with
  | thrown_value repr => inr repr
  | thrown_null =>
      inl (thrown_value "TypeError: Cannot read properties of null (reading 'toString')")
  | thrown_undefined =>
      inl (thrown_value
             "TypeError: Cannot read properties of undefined (reading 'toString')")
  end.

(** *** The submit handler *)

Definition actualSubmit (data : Req) : M unit :=
  do_setServerError (inr (val "")) ;;
  try_catch
    (let data := set_loadBalancerAlgorithm data
                   (nullish_assign (loadBalancerAlgorithm data)
                                   (LB RandomKeyOnEachConnection)) in
     data <- match narrow (path data) with
             | None => u <- do_uuidv4 ;; ret (set_path data (val u))
             | Some p => ret (set_path data (val (slugify X p)))
             end ;;
     s <- get ;;
     match dynamicAccessKeyData (props s) with
     | Some k =>
         let updateData := set_id data (val (key_id k)) in
         await_updateDynamicAccessKey updateData
     | None => await_createDynamicAccessKey data
     end ;;
     disclosure_onClose ;;
     if onSuccess (props s) then do_onSuccess else ret tt)
    (fun error =>
       do_setServerError
         match toString error with
         | inr repr => inr (val repr)
         | inl e => inl e
         end).

(** The rules given to [form.register]: [name] is required with a length
    of at most 64, [path] has a length of at most 120. *)
Definition maxLength (n : nat) (v : js string) : bool :=
  match v with
  | val s => Nat.leb (utf16_length s) n
  | _ => true
  end.

Definition validate (f : Req) : bool :=
  truthy (name f) && maxLength 64 (name f) && maxLength 120 (path f).

(** [form.handleSubmit(actualSubmit)]: the handler receives a copy of the
    form values, and only when they validate.  The form library's own
    [formState] (the errors it shows on the inputs, [isSubmitting]) is not
    part of the model. *)
Definition handleSubmit : M unit :=
  s <- get ;;
  if validate (form (component s)) then actualSubmit (form (component s))
  else ret tt.

(** *** The effects *)

(** Effect on [[selectedExpirationDate]]. *)
Definition useEffect_expiresAt (selectedExpirationDate : js string) (f : Req) : Req :=
  let value :=
    match narrow selectedExpirationDate with
    | Some d => val (moment_toDate X d)
    | None => null
    end in
  set_expiresAt f value.

(** Effect on [[selectedLoadBalancer]]. *)
Definition useEffect_loadBalancerAlgorithm (selectedLoadBalancer : js string) (f : Req) : Req :=
  match narrow selectedLoadBalancer with
  | Some a => set_loadBalancerAlgorithm f (val a)
  | None => set_loadBalancerAlgorithm f (val (LB RandomKeyOnEachConnection))
  end.

(** Effect on [[selectedPrefix]]. *)
Definition useEffect_prefix (selectedPrefix : js string) (f : Req) : Req :=
  set_prefix f selectedPrefix.

(** [form.reset(values)] for an existing record and for a new one. *)
Definition reset_values (data : option Key) : Req :=
  match data with
  | Some k =>
      {| id := undefined;
         name := val (key_name k);
         path := val (key_path k);
         loadBalancerAlgorithm := js_of_option (key_loadBalancerAlgorithm k);
         expiresAt := js_of_option (key_expiresAt k);
         prefix := js_of_option (key_prefix k) |}
  | None =>
      {| id := undefined;
         name := val "";
         path := val "";
         loadBalancerAlgorithm := val (LB RandomKeyOnEachConnection);
         expiresAt := null;
         prefix := null |}
  end.

(** Effect on [[disclosure.isOpen]]. *)
Definition useEffect_isOpen (isOpen : bool) (data : option Key) (c : Component) : Component :=
  if isOpen then
    match data with
    | Some k =>
        {| serverError := val "";
           selectedExpirationDate :=
             match key_expiresAt k with
             | Some d => val (moment_format X d)
             | None => undefined
             end;
           selectedLoadBalancer := js_of_option (key_loadBalancerAlgorithm k);
           selectedPrefix := js_of_option (key_prefix k);
           form := reset_values data |}
    | None =>
        {| serverError := val "";
           selectedExpirationDate := undefined;
           selectedLoadBalancer := null;
           selectedPrefix := null;
           form := reset_values data |}
    end
  else c.

(** *** Render and commit *)

Definition deps_of (s : Sys) : Deps :=
  {| dep_selectedExpirationDate := selectedExpirationDate (component s);
     dep_selectedLoadBalancer := selectedLoadBalancer (component s);
     dep_selectedPrefix := selectedPrefix (component s);
     dep_isOpen := isOpen s |}.

(** Has a dependency changed since the last commit; on mount every effect
    runs. *)
Definition changed (s : Sys) (same : Deps -> Deps -> bool) : bool :=
  match committed s with
  | None => true
  | Some d => negb (same d (deps_of s))
  end.

(** One render followed by its commit: the effects whose dependencies
    changed run in source order.  They read the state of this render;
    [form.setValue] and [form.reset] act at once, state updates show in the
    next render. *)
Definition commit (s : Sys) : Sys :=
  let c := component s in
  let f := form c in
  let f := if changed s (fun a b => js_eqb (dep_selectedExpirationDate a) (dep_selectedExpirationDate b))
           then useEffect_expiresAt (selectedExpirationDate c) f else f in
  let f := if changed s (fun a b => js_eqb (dep_selectedLoadBalancer a) (dep_selectedLoadBalancer b))
           then useEffect_loadBalancerAlgorithm (selectedLoadBalancer c) f else f in
  let f := if changed s (fun a b => js_eqb (dep_selectedPrefix a) (dep_selectedPrefix b))
           then useEffect_prefix (selectedPrefix c) f else f in
  let c := with_form c f in
  let c := if changed s (fun a b => Bool.eqb (dep_isOpen a) (dep_isOpen b))
           then useEffect_isOpen (isOpen s) (dynamicAccessKeyData (props s)) c else c in
  with_committed (with_component s c) (Some (deps_of s)).

(** The state updates of an effect cause one more render; after it nothing
    is pending (see [commit_settle]). *)
Definition settle (s : Sys) : Sys := commit (commit s).

(** *** What is on screen *)

(** The server error block: the text of its [<pre>], when rendered. *)
Definition errorPanel (c : Component) : option string := narrow (serverError c).

Definition prefixTrigger (c : Component) : string :=
  match narrow (selectedPrefix c) with
  | Some p => "Selected prefix: " ++ p
  | None => "Prefix"
  end.

Definition loadBalancerTrigger (c : Component) : string :=
  match narrow (selectedLoadBalancer c) with
  | Some a => "Selected algo: " ++ a
  | None => "Load balancer algorithm"
  end.

(** The key of a prefix item of the dropdown. *)
Definition prefix_key (p : AccessKeyPrefix) : string :=
  if prefix_type p =? AccessKeyPrefixType_None X then "" else prefix_type p.

(** The recommended ports block: [None] when not rendered, else the chips,
    or the TypeError of [find(...)!.recommendedPorts] when no entry has the
    selected type. *)
Definition recommendedPortsPanel (c : Component) : option (Thrown + list Port) :=
  match narrow (selectedPrefix c) with
  | None => None
  | Some p =>
      match find (fun x => prefix_type x =? p) (AccessKeyPrefixes X) with
      | Some x => Some (inr (recommendedPorts x))
      | None => Some (inl (thrown_value "TypeError: Cannot read properties of undefined (reading 'recommendedPorts')"))
      end
  end.

(** *** Events *)

Inductive Event : Type :=
| Rerender (p : Props)                      (* the parent passes new props *)
| Open                                      (* the parent's disclosure opens *)
| Cancel                                    (* the Cancel button: disclosure.onClose *)
| OpenChange                                (* the modal reports a dismissal: disclosure.onOpenChange *)
| InputName (v : string)
| InputPath (v : string)
| PickDate (v : js string)                  (* CustomDatePicker onChange *)
| DeleteDate                                (* the delete button beside the picker *)
| SelectLoadBalancer (k : option LoadBalancerAlgorithm)   (* currentKey of the menu *)
| SelectPrefix (k : option AccessKeyPrefix)
| Submit.                                   (* the Save button *)

(** The handler of an event, before React renders again. *)
Definition handle (e : Event) (s : Sys) : Sys :=
  let c := component s in
  match e with
  | Rerender p => with_props s p
  | Open => with_isOpen s (Disclosure.call Disclosure.onOpen (isOpen s))
  | Cancel => log (with_isOpen s (Disclosure.call Disclosure.onClose (isOpen s))) call_onClose
  | OpenChange => with_isOpen s (Disclosure.call Disclosure.onOpenChange (isOpen s))
  | InputName v => with_component s (with_form c (set_name (form c) (val v)))
  | InputPath v => with_component s (with_form c (set_path (form c) (val v)))
  | PickDate v => with_component s (setSelectedExpirationDate c v)
  | DeleteDate => with_component s (setSelectedExpirationDate c undefined)
  | SelectLoadBalancer k =>
      with_component s (setSelectedLoadBalancer c
        (match k with Some a => val (LB a) | None => undefined end))
  | SelectPrefix k =>
      with_component s (setSelectedPrefix c
        (match k with Some p => val (prefix_key p) | None => undefined end))
  | Submit => snd (handleSubmit s)
  end.

Definition step (s : Sys) (e : Event) : Sys := settle (handle e s).

(** The first render of the component. *)
Definition mount (p : Props) (o : bool) (v : Server X) (r : Rng X) : Sys :=
  settle {| component := {| serverError := undefined;
                            selectedExpirationDate := undefined;
                            selectedLoadBalancer := null;
                            selectedPrefix := null;
                            form := useForm |};
            props := p; isOpen := o; committed := None;
            server := v; rng := r; calls := []; render_threw := None |}.

(** The states the mounted component can be in. *)
Inductive reachable : Sys -> Prop :=
| reachable_mount p o v r : reachable (mount p o v r)
| reachable_step s e : reachable s -> reachable (step s e).

End DynamicAccessKeyFormModal.

(** ** Notions the statements use *)

Section Statements.

Variable X : Externals.

(** The dependencies of the last commit are those of the current state: no
    effect is due. *)
Definition synced (s : Sys X) : Prop := committed X s = Some (deps_of X s).

(** The keys of the items of the algorithm dropdown. *)
Definition algorithm_keys : list string :=
  [ LoadBalancerAlgorithm_value X RandomKeyOnEachConnection;
    LoadBalancerAlgorithm_value X RandomServerKeyOnEachConnection;
    LoadBalancerAlgorithm_value X UserIpAddress ].

(** A record whose algorithm column, when set, holds one of the three
    enumerated values. *)
Definition known_algorithm (k : DynamicAccessKey (Date X)) : Prop :=
  match key_loadBalancerAlgorithm k with
  | Some a => In a algorithm_keys
  | None => True
  end.

Definition known_props (p : Props X) : Prop :=
  match dynamicAccessKeyData X p with
  | Some k => known_algorithm k
  | None => True
  end.

(** The states reached when every record handed to the dialog has a known
    algorithm. *)
Inductive reachable_known : Sys X -> Prop :=
| known_mount p o v r : known_props p -> reachable_known (mount X p o v r)
| known_step s e :
    reachable_known s ->
    match e with Rerender _ p => known_props p | _ => True end ->
    reachable_known (step X s e).

(** The form field [prefix] holds the selected prefix. *)
Definition prefix_bound (s : Sys X) : Prop :=
  prefix (form X (component X s)) = selectedPrefix X (component X s).

(** The form field [expiresAt] holds a date when a date is selected, and
    [null] otherwise. *)
Definition expiresAt_bound (s : Sys X) : Prop :=
  match narrow (selectedExpirationDate X (component X s)) with
  | Some _ => exists d, expiresAt (form X (component X s)) = val d
  | None => expiresAt (form X (component X s)) = null
  end.

(** The selected algorithm is a key of the dropdown and the form field holds
    it; with nothing selected the field holds the default or [null]. *)
Definition algorithm_bound (s : Sys X) : Prop :=
  let field := loadBalancerAlgorithm (form X (component X s)) in
  let default := val (LoadBalancerAlgorithm_value X RandomKeyOnEachConnection) in
  match selectedLoadBalancer X (component X s) with
  | val a => In a algorithm_keys /\ (field = val a \/ (a = "" /\ field = default))
  | _ => field = default \/ field = null
  end.

(** What [commit] needs to bind the field: a known selection, and either a
    bound field or a pending effect. *)
Definition algorithm_due (s : Sys X) : Prop :=
  match selectedLoadBalancer X (component X s) with
  | val a => In a algorithm_keys
  | _ => True
  end /\
  (algorithm_bound s \/
   changed X s (fun a b => js_eqb (dep_selectedLoadBalancer a)
                                  (dep_selectedLoadBalancer b)) = true).

(** The server state the action behind a call leaves, from state [v]. *)
Definition after_action (c : Call X) (v : Server X) : Server X :=
  match c with
  | call_updateDynamicAccessKey _ payload => snd (updateDynamicAccessKey X payload v)
  | call_createDynamicAccessKey _ payload => snd (createDynamicAccessKey X payload v)
  | _ => v
  end.

(** The payloads handed to the server actions so far. *)
Definition payloads (l : list (Call X)) : list (Request (Date X)) :=
  flat_map (fun c => match c with
                     | call_updateDynamicAccessKey _ p => [p]
                     | call_createDynamicAccessKey _ p => [p]
                     | _ => []
                     end) l.

End Statements.

(** ** A concrete environment

    Dates are ISO timestamps, the random source is a list of identifiers
    drawn in advance, and the server keeps the paths in use: creating a key
    on a path in use throws, updating always succeeds. *)

Module Demo.

Definition format (d : string) : string :=
  if d =? "" then "Invalid date" else substring 0 10 d.

Definition toDate (s : string) : string := s ++ "T00:00:00.000Z".

Fixpoint dashes (s : string) : string :=
  match s with
  | EmptyString => EmptyString
  | String c r => String (if Ascii.eqb c " " then "-" else c)%char (dashes r)
  end.

Definition draw (r : list string) : string * list string :=
  match r with
  | u :: r' => (u, r')
  | [] => ("00000000-0000-4000-8000-000000000000", [])
  end.

Definition path_of (p : Request string) : string :=
  match path p with
  | val s => s
  | _ => ""
  end.

Definition create (p : Request string) (v : list string) : option Thrown * list string :=
  if existsb (String.eqb (path_of p)) v
  then (Some (thrown_value "Error: Unique constraint failed on the fields: (`path`)"), v)
  else (None, path_of p :: v).

Definition update (p : Request string) (v : list string) : option Thrown * list string :=
  (None, v).

Definition algorithm (a : LoadBalancerAlgorithm) : string :=
  match a with
  | RandomKeyOnEachConnection => "RandomKeyOnEachConnection"
  | RandomServerKeyOnEachConnection => "RandomServerKeyOnEachConnection"
  | UserIpAddress => "UserIpAddress"
  end.

Definition no_prefix : AccessKeyPrefix :=
  {| prefix_type := "None"; recommendedPorts := [] |}.

Definition tls_prefix : AccessKeyPrefix :=
  {| prefix_type := "TLS ClientHello";
     recommendedPorts := [ {| number := 443; description := "HTTPS" |};
                           {| number := 993; description := "IMAPS" |} ] |}.

Definition env (create update : Request string -> list string -> option Thrown * list string)
  : Externals :=
  {| Date := string;
     moment_toDate := toDate;
     moment_format := format;
     slugify := dashes;
     Rng := list string;
     uuidv4 := draw;
     Server := list string;
     createDynamicAccessKey := create;
     updateDynamicAccessKey := update;
     onSuccess_callback := fun v => (None, v);
     LoadBalancerAlgorithm_value := algorithm;
     AccessKeyPrefixType_None := "None";
     AccessKeyPrefixes := [no_prefix; tls_prefix] |}.

Definition X : Externals := env create update.


(** An existing record, as the key list would pass it for editing. *)
Definition key7 : DynamicAccessKey (Date X) :=
  {| key_id := 7;
     key_name := "office";
     key_path := "office-key";
     key_loadBalancerAlgorithm := Some "UserIpAddress";
     key_expiresAt := Some "2026-03-01T09:30:00.000Z";
     key_prefix := Some "TLS ClientHello" |}.

(** A record whose algorithm column holds a value from elsewhere. *)
Definition key8 : DynamicAccessKey (Date X) :=
  {| key_id := 8;
     key_name := "lab";
     key_path := "lab-key";
     key_loadBalancerAlgorithm := Some "LeastConnections";
     key_expiresAt := None;
     key_prefix := None |}.

Definition editing : Props X := Build_Props X (Some key7) true.
Definition creating : Props X := Build_Props X None true.

Definition uuids : list string :=
  ["3f2b8c1e-5d4a-4e6f-9a7b-1c2d3e4f5a6b"; "9b1deb4d-3b7d-4bad-9bdd-2b0d7b3dcb6d"].

(** A record whose prefix column holds a type the table does not list. *)
Definition key9 : DynamicAccessKey (Date X) :=
  {| key_id := 9;
     key_name := "relay";
     key_path := "relay-key";
     key_loadBalancerAlgorithm := Some "RandomKeyOnEachConnection";
     key_expiresAt := None;
     key_prefix := Some "QUIC Initial" |}.


End Demo.

(** * Properties *)

Open Scope list_scope.

(** ** JavaScript values *)

Lemma js_eqb_refl (a : js string) : js_eqb a a = true.
Proof. destruct a; simpl; auto using String.eqb_refl. Qed.

Lemma js_eqb_eq (a b : js string) : js_eqb a b = true <-> a = b.
Proof.
  destruct a, b; simpl; split; try congruence; intro H.
  - apply String.eqb_eq in H. now subst.
  - injection H as ->. apply String.eqb_refl.
Qed.

(** C9: with [isDismissable] omitted the prop is [false]: the close button is
    hidden, keyboard and overlay dismissal are disabled, and Ok is the one
    control of the open dialog that closes it; with [isDismissable = true]
    the close button, Escape and the overlay all dismiss. *)
Theorem MessageModal_dismissal :
  forall (t b : js string) (o : bool),
    let omitted := {| MessageModal.title := t; MessageModal.body := b;
                      MessageModal.isDismissable := None |} in
    let enabled := {| MessageModal.title := t; MessageModal.body := b;
                      MessageModal.isDismissable := Some true |} in
    let m := MessageModal.modal (MessageModal.MessageModal o omitted) in
    let m' := MessageModal.modal (MessageModal.MessageModal o enabled) in
    MessageModal.modal_isDismissable m = false /\
    MessageModal.hideCloseButton m = true /\
    MessageModal.isKeyboardDismissDisabled m = true /\
    MessageModal.okButton_onPress (MessageModal.MessageModal o omitted) = Disclosure.onClose /\
    (forall c, MessageModal.closes omitted c = true <-> c = MessageModal.OkButton) /\
    MessageModal.modal_isDismissable m' = true /\
    MessageModal.hideCloseButton m' = false /\
    MessageModal.isKeyboardDismissDisabled m' = false /\
    (forall c, MessageModal.closes enabled c = true).
Proof.
  intros t b o omitted enabled m m'.
  repeat split; try reflexivity.
  - destruct c; cbv; intro H; congruence.
  - intros ->. reflexivity.
  - destruct c; reflexivity.
Qed.

(** ** The submit handler *)

Section SubmitHandler.

Variable X : Externals.

Ltac run_submit :=
  cbv beta iota delta
    [actualSubmit bind try_catch ret get modify throw
     do_setServerError do_uuidv4 await_updateDynamicAccessKey
     await_createDynamicAccessKey disclosure_onClose do_onSuccess toString];
  simpl.

(** The branches of [actualSubmit]: the path test, the random draw, the
    record of the props, the answer of the server action, the callback. *)
Ltac submit_cases s data :=
  run_submit;
  destruct (narrow (path data)) as [?|]; simpl;
  [| destruct (uuidv4 X (rng X s)) as [? ?]; simpl];
  (destruct (dynamicAccessKeyData X (props X s)) as [?|]; simpl;
   [ match goal with |- context [updateDynamicAccessKey X ?d ?v] =>
       destruct (updateDynamicAccessKey X d v) as [[[| |?]|] ?] eqn:Hact end
   | match goal with |- context [createDynamicAccessKey X ?d ?v] =>
       destruct (createDynamicAccessKey X d v) as [[[| |?]|] ?] eqn:Hact end ];
   simpl; try (destruct (onSuccess X (props X s)); simpl);
   try match goal with
       | |- context [onSuccess_callback X ?v] =>
           destruct (onSuccess_callback X v) as [[[| |?]|] ?] eqn:Hcb; simpl
       end).

(** C1: the payload a submission passes to the server action has, for a
    blank path field (absent or empty), the identifier [uuidv4()] returns on
    this call, and otherwise the slug of the entered string. *)
Theorem actualSubmit_path (s : Sys X) (data : Request (Date X)) :
  exists payload rest,
    (calls X (snd (actualSubmit X data s)) =
       calls X s ++ call_updateDynamicAccessKey X payload :: rest \/
     calls X (snd (actualSubmit X data s)) =
       calls X s ++ call_createDynamicAccessKey X payload :: rest) /\
    forallb (fun c => negb (is_action X c)) rest = true /\
    path payload =
      match path data with
      | val entered =>
          if entered =? "" then val (fst (uuidv4 X (rng X s)))
          else val (slugify X entered)
      | _ => val (fst (uuidv4 X (rng X s)))
      end /\
    rng X (snd (actualSubmit X data s)) =
      if truthy (path data) then rng X s else snd (uuidv4 X (rng X s)).
Proof.
  unfold truthy.
  assert (Hn : narrow (path data) =
               match path data with
               | val entered => if entered =? "" then None else Some entered
               | _ => None
               end) by reflexivity.
  revert Hn.
  submit_cases s data; intros Hn;
    rewrite <- ?app_assoc; simpl;
    (eexists; eexists; split; [ (left; reflexivity) || (right; reflexivity) | ]);
    simpl; (split; [reflexivity|]); split; try reflexivity;
    destruct (path data) as [| |entered]; try discriminate; try reflexivity;
    destruct (entered =? ""); try discriminate; try reflexivity;
    now injection Hn as ->.
Qed.

(** C4: when the server action of a submission returns, the dialog is
    closed and then [onSuccess] is called if it was provided; these are the
    only calls after the action, in this order. *)
Theorem actualSubmit_returned (s : Sys X) (data : Request (Date X))
      (c : Call X) (rest : list (Call X)) :
  calls X (snd (actualSubmit X data s)) = calls X s ++ c :: rest ->
  response X c (server X s) = None ->
  rest = call_onClose X :: (if onSuccess X (props X s) then [call_onSuccess X] else []) /\
  isOpen X (snd (actualSubmit X data s)) = false /\
  fst (actualSubmit X data s) = inr tt.
Proof.
  submit_cases s data; rewrite <- ?app_assoc; simpl;
    intros H R; apply app_inv_head in H; injection H as <- <-;
    simpl in R; rewrite Hact in R; simpl in R; try discriminate; auto.
Qed.


(** The action called and the id of its payload. *)
Lemma actualSubmit_action (s : Sys X) (data : Request (Date X)) :
  exists payload rest,
    calls X (snd (actualSubmit X data s)) =
      calls X s ++
      match dynamicAccessKeyData X (props X s) with
      | Some _ => call_updateDynamicAccessKey X payload
      | None => call_createDynamicAccessKey X payload
      end :: rest /\
    forallb (fun c => negb (is_action X c)) rest = true /\
    id payload =
      match dynamicAccessKeyData X (props X s) with
      | Some k => val (key_id k)
      | None => id data
      end.
Proof.
  submit_cases s data; rewrite <- ?app_assoc; simpl; eauto.
Qed.

(** What a submission leaves in the component: only the error state is
    written. *)
Lemma actualSubmit_component (s : Sys X) (data : Request (Date X)) :
  exists v,
    component X (snd (actualSubmit X data s)) = setServerError X (component X s) (val v) /\
    (isOpen X (snd (actualSubmit X data s)) = isOpen X s \/
     isOpen X (snd (actualSubmit X data s)) = false).
Proof.
  submit_cases s data;
    (eexists; split; [reflexivity|]);
    ((left; reflexivity) || (right; reflexivity)).
Qed.

(** A submission that closes the dialog: the action returned, and the
    error state is empty unless [onSuccess] threw; then it holds what
    [onSuccess] threw, as a string, or the render fails on [toString]. *)
Lemma actualSubmit_closed (s : Sys X) (data : Request (Date X)) :
  isOpen X s = true ->
  isOpen X (snd (actualSubmit X data s)) = false ->
  exists c rest,
    calls X (snd (actualSubmit X data s)) = calls X s ++ c :: rest /\
    is_action X c = true /\
    match (if onSuccess X (props X s)
           then fst (onSuccess_callback X (after_action X c (server X s)))
           else None) with
    | None => serverError X (component X (snd (actualSubmit X data s))) = val ""
    | Some thrown =>
        match toString thrown with
        | inr repr =>
            serverError X (component X (snd (actualSubmit X data s))) = val repr
        | inl error => render_threw X (snd (actualSubmit X data s)) = Some error
        end
    end.
Proof.
  submit_cases s data; intros O C; try congruence;
    rewrite <- ?app_assoc; simpl;
    (eexists; eexists; split; [reflexivity|]); simpl;
    rewrite ?Hact; simpl; rewrite ?Hcb; simpl; auto.
Qed.

(** Validation stops a submission, or [actualSubmit] runs on the form
    values. *)
Lemma handleSubmit_cases (s : Sys X) :
  snd (handleSubmit X s) = s \/
  snd (handleSubmit X s) = snd (actualSubmit X (form X (component X s)) s).
Proof.
  unfold handleSubmit, bind, get.
  destruct (validate X (form X (component X s))); [right | left]; reflexivity.
Qed.

(** A submission touches the error state, the disclosure, the server and the
    call history, and nothing else. *)
Lemma actualSubmit_frame (s : Sys X) (data : Request (Date X)) :
  let s' := snd (actualSubmit X data s) in
  form X (component X s') = form X (component X s) /\
  selectedExpirationDate X (component X s') = selectedExpirationDate X (component X s) /\
  selectedLoadBalancer X (component X s') = selectedLoadBalancer X (component X s) /\
  selectedPrefix X (component X s') = selectedPrefix X (component X s) /\
  committed X s' = committed X s /\
  props X s' = props X s.
Proof.
  submit_cases s data; repeat split.
Qed.

Lemma handleSubmit_frame (s : Sys X) :
  let s' := snd (handleSubmit X s) in
  form X (component X s') = form X (component X s) /\
  selectedExpirationDate X (component X s') = selectedExpirationDate X (component X s) /\
  selectedLoadBalancer X (component X s') = selectedLoadBalancer X (component X s) /\
  selectedPrefix X (component X s') = selectedPrefix X (component X s) /\
  committed X s' = committed X s /\
  props X s' = props X s.
Proof.
  destruct (handleSubmit_cases s) as [-> | ->].
  - repeat split.
  - apply actualSubmit_frame.
Qed.

End SubmitHandler.

(** ** Render and commit *)

Section Commit.

Variable X : Externals.

Lemma commit_frame (s : Sys X) :
  props X (commit X s) = props X s /\
  isOpen X (commit X s) = isOpen X s /\
  server X (commit X s) = server X s /\
  rng X (commit X s) = rng X s /\
  calls X (commit X s) = calls X s /\
  committed X (commit X s) = Some (deps_of X s).
Proof. repeat split. Qed.

(** With unchanged dependencies no effect runs. *)
Lemma commit_synced (s : Sys X) :
  synced X s -> commit X s = s.
Proof.
  destruct s as [[] ? ? ? ? ? ?].
  unfold synced, commit, changed; simpl. intros ->; simpl.
  rewrite !js_eqb_refl, Bool.eqb_reflx. reflexivity.
Qed.

(** The effect on [isOpen] is the only one to update state, and it cannot
    run twice in a row: the second commit leaves the selections alone. *)
Lemma commit_commit_selections (s : Sys X) :
  deps_of X (commit X (commit X s)) = deps_of X (commit X s).
Proof.
  unfold deps_of. f_equal;
    unfold commit at 1; unfold changed; simpl;
    rewrite Bool.eqb_reflx; reflexivity.
Qed.

Lemma settle_synced (s : Sys X) : synced X (settle X s).
Proof.
  unfold synced, settle.
  rewrite commit_commit_selections. reflexivity.
Qed.

(** After [settle] no update is pending: a further render changes nothing. *)
Lemma commit_settle (s : Sys X) : commit X (settle X s) = settle X s.
Proof. apply commit_synced, settle_synced. Qed.

Lemma reachable_synced (s : Sys X) : reachable X s -> synced X s.
Proof. destruct 1; apply settle_synced. Qed.

End Commit.

(** ** Invariants of the mounted component *)

Ltac split_ifs :=
  repeat (simpl in *;
          match goal with
          | |- context [if ?b then _ else _] =>
              match type of b with bool => destruct b eqn:? end
          end);
  simpl in *.

Section Invariants.

Variable X : Externals.

(** *** The prefix *)

Lemma commit_prefix (s : Sys X) :
  prefix_bound X s \/
  changed X s (fun a b => js_eqb (dep_selectedPrefix a) (dep_selectedPrefix b)) = true ->
  prefix_bound X (commit X s).
Proof.
  unfold prefix_bound, commit, useEffect_isOpen, useEffect_prefix,
    useEffect_loadBalancerAlgorithm, useEffect_expiresAt, reset_values.
  intros [H | ->].
  - rewrite <- H.
    destruct (dynamicAccessKeyData X (props X s)) as [k|]; split_ifs; auto.
    all: destruct (narrow (selectedLoadBalancer X (component X s))); simpl; auto.
  - destruct (dynamicAccessKeyData X (props X s)) as [k|]; split_ifs; auto.
Qed.

Lemma handle_prefix (s : Sys X) (e : Event X) :
  synced X s -> prefix_bound X s ->
  prefix_bound X (handle X e s) \/
  changed X (handle X e s)
    (fun a b => js_eqb (dep_selectedPrefix a) (dep_selectedPrefix b)) = true.
Proof.
  unfold synced, prefix_bound, changed. intros Hs H.
  destruct e; simpl; rewrite ?Hs; simpl; auto.
  - match goal with |- context [js_eqb ?a ?b] => destruct (js_eqb a b) eqn:E end;
      simpl; auto.
    apply js_eqb_eq in E. left. congruence.
  - destruct (handleSubmit_frame X s) as (-> & _ & _ & -> & _). auto.
Qed.

Lemma reachable_prefix (s : Sys X) : reachable X s -> prefix_bound X s.
Proof.
  induction 1 as [p o v r | s e Hr IH]; unfold step, mount, settle.
  - apply commit_prefix; left. apply commit_prefix; right. reflexivity.
  - apply commit_prefix; left. apply commit_prefix.
    apply handle_prefix; auto using reachable_synced.
Qed.

(** *** The record identifier *)

Lemma commit_id (s : Sys X) :
  id (form X (component X s)) = undefined ->
  id (form X (component X (commit X s))) = undefined.
Proof.
  unfold commit, useEffect_isOpen, useEffect_prefix,
    useEffect_loadBalancerAlgorithm, useEffect_expiresAt, reset_values.
  intros H.
  destruct (dynamicAccessKeyData X (props X s)) as [k|]; split_ifs; auto.
  all: destruct (narrow (selectedLoadBalancer X (component X s))); simpl; auto.
Qed.

Lemma reachable_id (s : Sys X) :
  reachable X s -> id (form X (component X s)) = undefined.
Proof.
  induction 1 as [p o v r | s e Hr IH]; unfold step, mount, settle.
  - do 2 apply commit_id. reflexivity.
  - do 2 apply commit_id. destruct e; simpl; auto.
    destruct (handleSubmit_frame X s) as (-> & _). auto.
Qed.

(** *** The expiration date *)

Section ExpiresAt.

Hypothesis format_nonempty : forall d, moment_format X d <> "".

Lemma commit_expiresAt (s : Sys X) :
  expiresAt_bound X s \/
  changed X s (fun a b => js_eqb (dep_selectedExpirationDate a)
                                 (dep_selectedExpirationDate b)) = true ->
  expiresAt_bound X (commit X s).
Proof.
  unfold expiresAt_bound, commit, useEffect_isOpen, useEffect_prefix,
    useEffect_loadBalancerAlgorithm, useEffect_expiresAt, reset_values.
  intros H.
  destruct (narrow (selectedExpirationDate X (component X s))) as [sel|] eqn:En;
    (destruct (dynamicAccessKeyData X (props X s)) as [k|];
     [destruct (key_expiresAt k) as [d|]|]);
    destruct H as [H | ->]; split_ifs;
    rewrite ?En; simpl; eauto;
    try (exfalso;
         match goal with
         | E : (moment_format X _ =? "") = true |- _ =>
             apply String.eqb_eq in E; now apply format_nonempty in E
         end);
    destruct (narrow (selectedLoadBalancer X (component X s))); simpl; eauto.
Qed.

Lemma handle_expiresAt (s : Sys X) (e : Event X) :
  synced X s -> expiresAt_bound X s ->
  expiresAt_bound X (handle X e s) \/
  changed X (handle X e s)
    (fun a b => js_eqb (dep_selectedExpirationDate a)
                       (dep_selectedExpirationDate b)) = true.
Proof.
  unfold synced, expiresAt_bound, changed. intros Hs H.
  destruct e; simpl; rewrite ?Hs; simpl; auto.
  1, 2: match goal with |- context [js_eqb ?a ?b] => destruct (js_eqb a b) eqn:E end;
      simpl; auto; apply js_eqb_eq in E; left; rewrite E in H; exact H.
  destruct (handleSubmit_frame X s) as (-> & -> & _). auto.
Qed.

Lemma reachable_expiresAt (s : Sys X) : reachable X s -> expiresAt_bound X s.
Proof.
  induction 1 as [p o v r | s e Hr IH]; unfold step, mount, settle.
  - apply commit_expiresAt; left. apply commit_expiresAt; right. reflexivity.
  - apply commit_expiresAt; left. apply commit_expiresAt.
    apply handle_expiresAt; auto using reachable_synced.
Qed.

End ExpiresAt.

(** *** The load-balancer algorithm *)

Lemma algorithm_keys_spec (a : string) :
  In a (algorithm_keys X) <-> exists alg, a = LoadBalancerAlgorithm_value X alg.
Proof.
  unfold algorithm_keys; simpl. split.
  - intros [<- | [<- | [<- | []]]]; eauto.
  - intros [[] ->]; auto.
Qed.

Lemma algorithm_bound_due (s : Sys X) : algorithm_bound X s -> algorithm_due X s.
Proof.
  unfold algorithm_due, algorithm_bound. intros H; split; auto.
  destruct (selectedLoadBalancer X (component X s)); tauto.
Qed.

Lemma commit_algorithm (s : Sys X) :
  known_props X (props X s) -> algorithm_due X s -> algorithm_bound X (commit X s).
Proof.
  destruct s as [[err selE selL selP f] [data cb] o c v r l].
  unfold algorithm_due, algorithm_bound, known_props, known_algorithm, commit,
    useEffect_isOpen, useEffect_prefix, useEffect_loadBalancerAlgorithm,
    useEffect_expiresAt, reset_values.
  generalize (algorithm_keys X) as keys. simpl.
  intros keys K [S H].
  destruct data as [k|];
    [destruct (key_loadBalancerAlgorithm k) as [a|]|];
    destruct selL as [| |sel];
    destruct H as [H | ->]; split_ifs; auto;
    try (match goal with E : (_ =? "") = true |- _ => apply String.eqb_eq in E end);
    auto.
Qed.

Lemma handle_algorithm (s : Sys X) (e : Event X) :
  synced X s -> algorithm_bound X s -> algorithm_due X (handle X e s).
Proof.
  intros Hs H.
  assert (D := algorithm_bound_due s H).
  assert (Hk : forall alg, In (LoadBalancerAlgorithm_value X alg) (algorithm_keys X))
    by (intro; apply algorithm_keys_spec; eauto).
  revert Hs H D Hk. unfold synced, algorithm_due, algorithm_bound, changed.
  generalize (algorithm_keys X) as keys.
  intros keys Hs H D Hk.
  destruct e; simpl; rewrite ?Hs; simpl; try tauto.
  - match goal with |- context [js_eqb ?a ?b] => destruct (js_eqb a b) eqn:E end;
      simpl.
    + apply js_eqb_eq in E. rewrite <- E. tauto.
    + split; auto. destruct k as [alg|]; auto.
  - destruct (handleSubmit_frame X s) as (-> & _ & -> & _ & -> & _).
    rewrite Hs. tauto.
Qed.

(** Every submission hands one payload to a server action; it is the form
    data with the path, the default algorithm and the identifier filled in. *)
Lemma actualSubmit_payload (s : Sys X) (data : Request (Date X)) :
  exists payload,
    payloads X (calls X (snd (actualSubmit X data s))) =
      payloads X (calls X s) ++ [payload] /\
    loadBalancerAlgorithm payload =
      nullish_assign (loadBalancerAlgorithm data)
                     (LoadBalancerAlgorithm_value X RandomKeyOnEachConnection) /\
    name payload = name data /\
    expiresAt payload = expiresAt data /\
    prefix payload = prefix data.
Proof.
  unfold payloads.
  cbv beta iota delta
    [actualSubmit bind try_catch ret get modify throw
     do_setServerError do_uuidv4 await_updateDynamicAccessKey
     await_createDynamicAccessKey disclosure_onClose do_onSuccess toString];
  simpl;
  destruct (narrow (path data)) as [?|]; simpl;
  [| destruct (uuidv4 X (rng X s)) as [? ?]; simpl];
  (destruct (dynamicAccessKeyData X (props X s)) as [?|]; simpl;
   [ match goal with |- context [updateDynamicAccessKey X ?d ?v] =>
       destruct (updateDynamicAccessKey X d v) as [[[| |?]|] ?] end
   | match goal with |- context [createDynamicAccessKey X ?d ?v] =>
       destruct (createDynamicAccessKey X d v) as [[[| |?]|] ?] end ];
   simpl; try (destruct (onSuccess X (props X s)); simpl);
   try match goal with
       | |- context [onSuccess_callback X ?v] =>
           destruct (onSuccess_callback X v) as [[[| |?]|] ?]; simpl
       end);
  rewrite !flat_map_app; simpl; rewrite ?app_nil_r; eauto 7.
Qed.

(** The states reached with known records bind the algorithm, and every
    payload so far carries one of the three values. *)
Lemma reachable_known_algorithm (s : Sys X) :
  reachable_known X s ->
  known_props X (props X s) /\ algorithm_bound X s /\
  Forall (fun p => In (loadBalancerAlgorithm p) (map val (algorithm_keys X)))
         (payloads X (calls X s)).
Proof.
  induction 1 as [p o v r K | s e Hr (K & B & P) He]; unfold step, mount, settle.
  - split; [exact K|]. split; [|constructor].
    apply commit_algorithm; [exact K|]. apply algorithm_bound_due.
    apply commit_algorithm; [exact K|]. split; simpl; auto.
  - assert (Hs : synced X s).
    { destruct Hr; apply settle_synced. }
    assert (K' : known_props X (props X (handle X e s))).
    { destruct e; simpl; auto.
      destruct (handleSubmit_frame X s) as (_ & _ & _ & _ & _ & ->). exact K. }
    split; [exact K'|]. split.
    + apply commit_algorithm; [exact K'|]. apply algorithm_bound_due.
      apply commit_algorithm; [exact K'|]. apply handle_algorithm; auto.
    + change (Forall (fun p => In (loadBalancerAlgorithm p) (map val (algorithm_keys X)))
                     (payloads X (calls X (handle X e s)))).
      destruct e; simpl; auto.
      * unfold payloads. rewrite flat_map_app, app_nil_r. exact P.
      * destruct (handleSubmit_cases X s) as [-> | ->]; [exact P|].
        destruct (actualSubmit_payload s (form X (component X s)))
          as (payload & -> & L & _).
        apply Forall_app; split; [exact P|]. constructor; [|constructor].
        rewrite L. unfold algorithm_bound in B.
        destruct (selectedLoadBalancer X (component X s)) as [| |a]; simpl in B.
        1, 2: destruct B as [B | B]; rewrite B; simpl; auto.
        destruct B as [Ha [B | [_ B]]]; rewrite B; simpl; auto.
        destruct Ha as [<- | [<- | [<- | []]]]; auto.
Qed.

End Invariants.

(** ** The claims about submission *)

Section Submission.

Variable X : Externals.

Lemma step_calls (s : Sys X) (e : Event X) :
  calls X (step X s e) = calls X (handle X e s).
Proof. reflexivity. Qed.

(** C2, as amended: when every record handed to the dialog has a known
    algorithm, every payload passed to a server action carries one of the
    three values, and a submission made with no algorithm selected carries
    [RandomKeyOnEachConnection]. *)
Theorem known_algorithm_submitted (s : Sys X) :
  reachable_known X s ->
  Forall (fun payload =>
            exists a, loadBalancerAlgorithm payload = val (LoadBalancerAlgorithm_value X a))
         (payloads X (calls X s)) /\
  (nullish (selectedLoadBalancer X (component X s)) = true ->
   payloads X (calls X (step X s (Submit X))) = payloads X (calls X s) \/
   exists payload,
     payloads X (calls X (step X s (Submit X))) = payloads X (calls X s) ++ [payload] /\
     loadBalancerAlgorithm payload =
       val (LoadBalancerAlgorithm_value X RandomKeyOnEachConnection)).
Proof.
  intros Hr. split.
  - apply reachable_known_algorithm in Hr as (_ & _ & P).
    eapply Forall_impl; [|exact P].
    intros payload H. apply in_map_iff in H as (a & <- & H).
    apply algorithm_keys_spec in H as (alg & ->). eauto.
  - intros N. rewrite step_calls. simpl.
    destruct (handleSubmit_cases X s) as [-> | ->]; [left; reflexivity | right].
    destruct (actualSubmit_payload X s (form X (component X s)))
      as (payload & -> & L & _).
    exists payload. split; [reflexivity|]. rewrite L.
    apply reachable_known_algorithm in Hr as (_ & B & _).
    unfold algorithm_bound in B.
    destruct (selectedLoadBalancer X (component X s)); try discriminate;
      simpl in B; destruct B as [-> | ->]; reflexivity.
Qed.

(** C5: with an existing record the payload gets that record's id and goes
    to [updateDynamicAccessKey]; without one the id of the form data is left
    as it is and the payload goes to [createDynamicAccessKey]; and the form
    values of the mounted component never hold an id. *)
Theorem actualSubmit_id (s : Sys X) (data : Request (Date X)) :
  (exists payload rest,
     calls X (snd (actualSubmit X data s)) =
       calls X s ++
       match dynamicAccessKeyData X (props X s) with
       | Some _ => call_updateDynamicAccessKey X payload
       | None => call_createDynamicAccessKey X payload
       end :: rest /\
     forallb (fun c => negb (is_action X c)) rest = true /\
     id payload =
       match dynamicAccessKeyData X (props X s) with
       | Some k => val (key_id k)
       | None => id data
       end) /\
  (reachable X s -> id (form X (component X s)) = undefined).
Proof.
  split; [apply actualSubmit_action | apply reachable_id].
Qed.

End Submission.

(** C2, as stated, fails: a record whose algorithm column holds another
    string is submitted unchanged. *)
Lemma foreign_algorithm_submitted :
  let p := Build_Props Demo.X (Some Demo.key8) true in
  let s := step Demo.X (mount Demo.X p true [] Demo.uuids) (Submit Demo.X) in
  exists payload,
    calls Demo.X s = [call_updateDynamicAccessKey Demo.X payload;
                      call_onClose Demo.X; call_onSuccess Demo.X] /\
    loadBalancerAlgorithm payload = val "LeastConnections" /\
    forall a, loadBalancerAlgorithm payload <> val (LoadBalancerAlgorithm_value Demo.X a).
Proof.
  eexists. split; [reflexivity|]. split; [reflexivity|].
  intros []; discriminate.
Qed.

(** A new key named "home", created with the default algorithm. *)
Lemma known_algorithm_submitted_witness :
  let s := step Demo.X
             (step Demo.X (mount Demo.X Demo.creating true [] Demo.uuids)
                   (InputName Demo.X "home"))
             (Submit Demo.X) in
  reachable_known Demo.X s /\
  Forall (fun payload =>
            exists a, loadBalancerAlgorithm payload
                      = val (LoadBalancerAlgorithm_value Demo.X a))
         (payloads Demo.X (calls Demo.X s)).
Proof.
  assert (H : reachable_known Demo.X
                (step Demo.X
                   (step Demo.X (mount Demo.X Demo.creating true [] Demo.uuids)
                         (InputName Demo.X "home"))
                   (Submit Demo.X))).
  { repeat (apply known_step; [|exact I]). apply known_mount. exact I. }
  split; [exact H|].
  exact (proj1 (known_algorithm_submitted Demo.X _ H)).
Defined.



(** Saving the record opened for editing. *)
Lemma actualSubmit_returned_witness :
  let X := Demo.X in
  let s := mount X Demo.editing true [] Demo.uuids in
  let data := form X (component X s) in
  let s' := snd (actualSubmit X data s) in
  exists payload,
    calls X s' = [call_updateDynamicAccessKey X payload; call_onClose X; call_onSuccess X] /\
    isOpen X s' = false.
Proof.
  intros X s data s'.
  eexists.
  destruct (actualSubmit_returned X s data _ _ eq_refl eq_refl) as (_ & Ho & _).
  exact (conj eq_refl Ho).
Defined.

(** ** The claims about opening and closing *)

Section OpenClose.

Variable X : Externals.

(** When a render sees the dialog closed and no selection changed, the
    commit leaves the component as it is. *)
Lemma settle_closed (s0 s : Sys X) :
  synced X s0 ->
  committed X s = committed X s0 ->
  selectedExpirationDate X (component X s) = selectedExpirationDate X (component X s0) ->
  selectedLoadBalancer X (component X s) = selectedLoadBalancer X (component X s0) ->
  selectedPrefix X (component X s) = selectedPrefix X (component X s0) ->
  isOpen X s = false ->
  component X (settle X s) = component X s.
Proof.
  destruct s0 as [[e0 d0 l0 p0 f0] q0 o0 c0 v0 r0 h0].
  destruct s as [[e d l p f] q o c v r h].
  unfold synced, settle, commit, changed, useEffect_isOpen. simpl.
  intros -> -> -> -> -> ->. simpl.
  rewrite !js_eqb_refl. simpl.
  destruct (negb (eqb o0 false)); simpl; rewrite !js_eqb_refl; reflexivity.
Qed.

Lemma step_isOpen (s : Sys X) (e : Event X) :
  isOpen X (step X s e) = isOpen X (handle X e s).
Proof. reflexivity. Qed.

(** C6, as amended: a transition from open to closed clears nothing.  The
    form values and the three selections are what they were.  The error
    state is what it was after Cancel or a dismissal; after a submission
    that closed the dialog it is empty, unless [onSuccess] threw: then it is
    what [onSuccess] threw, as a string (or the render fails where
    [toString] does). *)
Theorem close_keeps_state (s : Sys X) (e : Event X) :
  reachable X s ->
  isOpen X s = true ->
  isOpen X (step X s e) = false ->
  form X (component X (step X s e)) = form X (component X s) /\
  selectedExpirationDate X (component X (step X s e))
    = selectedExpirationDate X (component X s) /\
  selectedLoadBalancer X (component X (step X s e))
    = selectedLoadBalancer X (component X s) /\
  selectedPrefix X (component X (step X s e)) = selectedPrefix X (component X s) /\
  match e with
  | Submit _ =>
      exists c rest,
        calls X (step X s e) = calls X s ++ c :: rest /\
        is_action X c = true /\
        match (if onSuccess X (props X s)
               then fst (onSuccess_callback X (after_action X c (server X s)))
               else None) with
        | None => serverError X (component X (step X s e)) = val ""
        | Some thrown =>
            match toString thrown with
            | inr repr => serverError X (component X (step X s e)) = val repr
            | inl error => render_threw X (step X s e) = Some error
            end
        end
  | _ => serverError X (component X (step X s e)) = serverError X (component X s)
  end.
Proof.
  intros Hr Ho Hc.
  assert (Hs := reachable_synced X s Hr).
  rewrite step_isOpen in Hc.
  destruct e; simpl in Hc; try congruence.
  - (* Cancel *)
    unfold step. rewrite (settle_closed s); auto; simpl; tauto.
  - (* a dismissal reported by the modal *)
    unfold step. rewrite (settle_closed s); auto; simpl; tauto.
  - (* Submit *)
    destruct (handleSubmit_frame X s) as (Ff & Fe & Fl & Fp & Fc & _).
    change (render_threw X (step X s (Submit X)))
      with (render_threw X (snd (handleSubmit X s))).
    rewrite step_calls.
    unfold step. rewrite (settle_closed s); auto. simpl.
    repeat (split; [assumption|]).
    destruct (handleSubmit_cases X s) as [E | E]; rewrite E in *; [congruence|].
    apply actualSubmit_closed; assumption.
Qed.



End OpenClose.

(** C6, as stated, fails: after Cancel the typed name, the picked date and
    the selections are still in the component. *)
Lemma state_kept_after_close :
  let X := Demo.X in
  let s := step X (step X (step X (step X (mount X Demo.creating true [] Demo.uuids)
                                        (InputName X "home"))
                                (PickDate X (val "2026-05-01")))
                        (SelectPrefix X (Some Demo.tls_prefix)))
                (Cancel X) in
  isOpen X s = false /\
  name (form X (component X s)) = val "home" /\
  expiresAt (form X (component X s)) = val "2026-05-01T00:00:00.000Z" /\
  selectedExpirationDate X (component X s) = val "2026-05-01" /\
  selectedPrefix X (component X s) = val "TLS ClientHello".
Proof. repeat split. Qed.

(** Cancel after a create on the path "taken" was refused by the server:
    the form and the error are kept. *)
Lemma close_keeps_state_witness :
  let X := Demo.X in
  let s := step X (step X (step X (mount X Demo.creating true ["taken"] Demo.uuids)
                                (InputName X "home"))
                        (InputPath X "taken"))
                (Submit X) in
  reachable X s /\ isOpen X s = true /\ isOpen X (step X s (Cancel X)) = false /\
  form X (component X (step X s (Cancel X))) = form X (component X s) /\
  serverError X (component X (step X s (Cancel X))) =
    val "Error: Unique constraint failed on the fields: (`path`)".
Proof.
  intros X s.
  assert (Hr : reachable X s) by (do 3 apply reachable_step; apply reachable_mount).
  destruct (close_keeps_state X s (Cancel X) Hr eq_refl eq_refl) as (Hf & _ & _ & _ & He).
  exact (conj Hr (conj eq_refl (conj eq_refl (conj Hf He)))).
Defined.



(** ** The claims about the selections *)

Section Selections.

Variable X : Externals.

(** While [isOpen] stays as committed, the effects write the form only. *)
Lemma settle_selections (s0 s : Sys X) :
  synced X s0 ->
  committed X s = committed X s0 ->
  isOpen X s = isOpen X s0 ->
  deps_of X (settle X s) = deps_of X s.
Proof.
  destruct s0 as [[e0 d0 l0 p0 f0] q0 o0 c0 v0 r0 h0].
  destruct s as [[e d l p f] q o c v r h].
  unfold synced, settle, commit, changed, deps_of. simpl.
  intros -> -> ->. simpl. rewrite !Bool.eqb_reflx. reflexivity.
Qed.

(** A changed date selection runs the effect on it.  The selection changes
    in the handler, or in the effect on [isOpen]; no handler touches both
    the selection and [isOpen]. *)
Lemma settle_expiresAt (s0 s : Sys X) :
  synced X s0 ->
  committed X s = committed X s0 ->
  isOpen X s = isOpen X s0 \/
  selectedExpirationDate X (component X s) = selectedExpirationDate X (component X s0) ->
  selectedExpirationDate X (component X (settle X s))
    <> selectedExpirationDate X (component X s0) ->
  expiresAt (form X (component X (settle X s))) =
    match narrow (selectedExpirationDate X (component X (settle X s))) with
    | Some d => val (moment_toDate X d)
    | None => null
    end.
Proof.
  destruct s0 as [[e0 d0 l0 p0 f0] q0 o0 c0 v0 r0 h0].
  destruct s as [[e d l p f] [data cb] o c v r h].
  unfold synced, settle, commit, changed, useEffect_expiresAt,
    useEffect_loadBalancerAlgorithm, useEffect_prefix, useEffect_isOpen,
    reset_values. simpl.
  intros -> -> H. simpl.
  assert (Q : forall a b : js string, a <> b -> js_eqb b a = false).
  { intros a b N. destruct (js_eqb b a) eqn:E; auto.
    apply js_eqb_eq in E. congruence. }
  destruct H as [-> | ->].
  - rewrite !Bool.eqb_reflx. simpl. intros N.
    rewrite (Q _ _ N), !js_eqb_refl. simpl.
    split_ifs; destruct (narrow l); reflexivity.
  - rewrite !Bool.eqb_reflx, !js_eqb_refl. simpl.
    destruct (negb (eqb o0 o)); simpl; [destruct o; simpl|];
      try (intros N; now contradiction N).
    destruct data as [k|]; simpl; intros N; rewrite (Q _ _ N); simpl;
      split_ifs; repeat match goal with
                        | |- context [narrow ?x] =>
                            match x with val _ => fail 1 | _ => destruct (narrow x) end
                        end; reflexivity.
Qed.

Lemma handle_expiresAt_or_isOpen (s : Sys X) (e : Event X) :
  isOpen X (handle X e s) = isOpen X s \/
  selectedExpirationDate X (component X (handle X e s))
    = selectedExpirationDate X (component X s).
Proof.
  destruct e; simpl; auto.
  destruct (handleSubmit_frame X s) as (_ & -> & _). auto.
Qed.

Lemma handle_committed (s : Sys X) (e : Event X) :
  committed X (handle X e s) = committed X s.
Proof.
  destruct e; simpl; auto.
  destruct (handleSubmit_frame X s) as (_ & _ & _ & _ & -> & _). auto.
Qed.

(** C8: whenever an event changes the selected expiration date, the form
    field [expiresAt] is set to the date parsed from the selection, or to
    [null] when nothing is selected; the delete button clears the selection
    and the field; and so the field, and with it the payload of a
    submission, is [null] exactly when no date is selected. *)
Theorem expiresAt_follows_selection (s : Sys X) :
  (forall d, moment_format X d <> "") ->
  reachable X s ->
  (forall e,
     selectedExpirationDate X (component X (step X s e))
       <> selectedExpirationDate X (component X s) ->
     expiresAt (form X (component X (step X s e))) =
       match narrow (selectedExpirationDate X (component X (step X s e))) with
       | Some d => val (moment_toDate X d)
       | None => null
       end) /\
  (forall v, selectedExpirationDate X (component X (step X s (PickDate X v))) = v) /\
  (selectedExpirationDate X (component X (step X s (DeleteDate X))) = undefined /\
   expiresAt (form X (component X (step X s (DeleteDate X)))) = null) /\
  (expiresAt (form X (component X s)) = null <->
   narrow (selectedExpirationDate X (component X s)) = None) /\
  (payloads X (calls X (step X s (Submit X))) = payloads X (calls X s) \/
   exists payload,
     payloads X (calls X (step X s (Submit X))) = payloads X (calls X s) ++ [payload] /\
     (expiresAt payload = null <->
      narrow (selectedExpirationDate X (component X s)) = None)).
Proof.
  intros Hf Hr.
  assert (Hs := reachable_synced X s Hr).
  assert (B : expiresAt (form X (component X s)) = null <->
              narrow (selectedExpirationDate X (component X s)) = None).
  { assert (H := reachable_expiresAt X Hf s Hr). unfold expiresAt_bound in H.
    destruct (narrow (selectedExpirationDate X (component X s))).
    - destruct H as [d ->]. split; discriminate.
    - tauto. }
  assert (P : forall v, selectedExpirationDate X (component X (step X s (PickDate X v))) = v).
  { intros v. unfold step.
    change (dep_selectedExpirationDate (deps_of X (settle X (handle X (PickDate X v) s))) = v).
    rewrite (settle_selections s); auto. }
  split; [|split; [|split; [|split]]].
  - intros e N. unfold step in *.
    apply (settle_expiresAt s); auto using handle_committed, handle_expiresAt_or_isOpen.
  - exact P.
  - assert (D : selectedExpirationDate X (component X (step X s (DeleteDate X))) = undefined)
      by apply (P undefined).
    split; [exact D|].
    assert (H := reachable_expiresAt X Hf _ (reachable_step X s (DeleteDate X) Hr)).
    unfold expiresAt_bound in H. rewrite D in H. exact H.
  - exact B.
  - rewrite step_calls. simpl.
    destruct (handleSubmit_cases X s) as [-> | ->]; [left; reflexivity | right].
    destruct (actualSubmit_payload X s (form X (component X s)))
      as (payload & -> & _ & _ & E & _).
    exists payload. split; [reflexivity | rewrite E; exact B].
Qed.

(** C10: the item of the prefix type [None] has the empty key; selecting it
    makes the selected prefix and the form field [prefix] the empty string,
    the recommended ports are not rendered and the trigger shows its
    placeholder. *)
Theorem none_prefix_selected (s : Sys X) (p : AccessKeyPrefix) :
  reachable X s ->
  prefix_type p = AccessKeyPrefixType_None X ->
  let c := component X (step X s (SelectPrefix X (Some p))) in
  prefix_key X p = "" /\
  selectedPrefix X c = val "" /\
  prefix (form X c) = val "" /\
  recommendedPortsPanel X c = None /\
  prefixTrigger X c = "Prefix".
Proof.
  intros Hr Hp c.
  assert (Hs := reachable_synced X s Hr).
  assert (K : prefix_key X p = "").
  { unfold prefix_key. rewrite Hp, String.eqb_refl. reflexivity. }
  assert (S : selectedPrefix X c = val "").
  { unfold c, step.
    change (dep_selectedPrefix (deps_of X (settle X (handle X (SelectPrefix X (Some p)) s)))
            = val "").
    rewrite (settle_selections s); auto. simpl. now rewrite K. }
  assert (F := reachable_prefix X _ (reachable_step X s (SelectPrefix X (Some p)) Hr)).
  unfold prefix_bound in F. fold c in F.
  unfold recommendedPortsPanel, prefixTrigger.
  rewrite F, S. repeat split; auto.
Qed.

End Selections.

(** The concrete formatter never returns the empty string. *)
Lemma Demo_format_nonempty (d : Date Demo.X) : moment_format Demo.X d <> "".
Proof.
  simpl. unfold Demo.format. destruct d as [|a d]; simpl; discriminate.
Qed.

(** Picking another date and pressing the delete button while editing. *)
Lemma expiresAt_follows_selection_witness :
  let X := Demo.X in
  let s := mount X Demo.editing true [] Demo.uuids in
  selectedExpirationDate X (component X s) = val "2026-03-01" /\
  expiresAt (form X (component X (step X s (PickDate X (val "2026-05-01")))))
    = val "2026-05-01T00:00:00.000Z" /\
  expiresAt (form X (component X (step X s (DeleteDate X)))) = null.
Proof.
  intros X s.
  destruct (expiresAt_follows_selection X s Demo_format_nonempty
              (reachable_mount X Demo.editing true [] Demo.uuids))
    as (Hchange & _ & (_ & Hdel) & _).
  split; [reflexivity|]. split; [|exact Hdel].
  apply (Hchange (PickDate X (val "2026-05-01"))). discriminate.
Defined.

(** Selecting the [None] item while editing a record with a prefix. *)
Lemma none_prefix_selected_witness :
  let X := Demo.X in
  let s := mount X Demo.editing true [] Demo.uuids in
  let c := component X (step X s (SelectPrefix X (Some Demo.no_prefix))) in
  selectedPrefix X (component X s) = val "TLS ClientHello" /\
  selectedPrefix X c = val "" /\ prefix (form X c) = val "" /\
  recommendedPortsPanel X c = None /\ prefixTrigger X c = "Prefix".
Proof.
  intros X s c.
  destruct (none_prefix_selected X s Demo.no_prefix
              (reachable_mount X Demo.editing true [] Demo.uuids) eq_refl)
    as (_ & H).
  exact (conj eq_refl H).
Defined.

(** * Further properties of the form dialog *)

Section Further.

Variable X : Externals.

(** An event whose handler leaves the dependencies alone is followed by no
    effect. *)
Lemma settle_idle (s0 s : Sys X) :
  synced X s0 ->
  committed X s = committed X s0 ->
  deps_of X s = deps_of X s0 ->
  settle X s = s.
Proof.
  intros H0 Hc Hd.
  assert (Hs : synced X s) by (unfold synced in *; congruence).
  unfold settle. now rewrite !(commit_synced X s Hs).
Qed.

(** The rules of [form.register], spelled out. *)
Lemma validate_false (f : Request (Date X)) :
  validate X f = false <->
  narrow (name f) = None \/
  (exists n, name f = val n /\ 64 < utf16_length n) \/
  (exists p, path f = val p /\ 120 < utf16_length p).
Proof.
  unfold validate, truthy, maxLength.
  destruct (name f) as [| |n]; simpl; try tauto.
  destruct (n =? ""); simpl; try tauto.
  destruct (Nat.leb_spec (utf16_length n) 64) as [Hn | Hn]; simpl.
  - destruct (path f) as [| |p]; simpl.
    1, 2: split; [discriminate|];
          intros [H | [(n' & E & H) | (p' & E & H)]]; try discriminate;
          injection E as <-; lia.
    destruct (Nat.leb_spec (utf16_length p) 120) as [Hp | Hp]; split; eauto;
      try discriminate.
    intros [H | [(n' & E & H) | (p' & E & H)]]; try discriminate;
      injection E as <-; lia.
  - split; eauto.
Qed.

(** X1: only the Save button reaches the server, and only with values that
    pass the rules of the two inputs.  With a blank name, a name whose
    length exceeds 64 or a path whose length exceeds 120 (lengths as
    JavaScript counts them), Save calls nothing and leaves the form values,
    the selections, the error state and the open dialog as they are;
    otherwise exactly one payload is handed to a server action. *)
Theorem server_called_by_valid_submit_only (s : Sys X) (e : Event X) :
  reachable X s ->
  let f := form X (component X s) in
  let invalid :=
    narrow (name f) = None \/
    (exists n, name f = val n /\ 64 < utf16_length n) \/
    (exists p, path f = val p /\ 120 < utf16_length p) in
  (e <> Submit X -> payloads X (calls X (step X s e)) = payloads X (calls X s)) /\
  (invalid ->
   component X (step X s (Submit X)) = component X s /\
   isOpen X (step X s (Submit X)) = isOpen X s /\
   calls X (step X s (Submit X)) = calls X s) /\
  (~ invalid ->
   exists payload,
     payloads X (calls X (step X s (Submit X))) = payloads X (calls X s) ++ [payload]).
Proof.
  intros Hr f invalid.
  assert (Hs := reachable_synced X s Hr).
  split; [|split].
  - intros N. rewrite step_calls.
    destruct e; simpl; try reflexivity; try congruence.
    unfold payloads. now rewrite flat_map_app, app_nil_r.
  - intros I. apply validate_false in I.
    assert (E : step X s (Submit X) = s).
    { unfold step. simpl. unfold handleSubmit, bind, get. fold f. rewrite I.
      simpl. now apply (settle_idle s). }
    rewrite E. auto.
  - intros V. rewrite step_calls. simpl.
    unfold handleSubmit, bind, get. fold f.
    destruct (validate X f) eqn:E.
    + destruct (actualSubmit_payload X s f) as (payload & P & _). eauto.
    + apply validate_false in E. contradiction.
Qed.

(** X2: the payload of a submission is the form data with only the path,
    a missing algorithm and, on edit, the id filled in: name, expiration and
    prefix go to the server as they are, and so does an algorithm that is
    not [null] or [undefined]. *)
Theorem actualSubmit_keeps_fields (s : Sys X) (data : Request (Date X)) :
  exists payload,
    payloads X (calls X (snd (actualSubmit X data s))) =
      payloads X (calls X s) ++ [payload] /\
    name payload = name data /\
    expiresAt payload = expiresAt data /\
    prefix payload = prefix data /\
    loadBalancerAlgorithm payload =
      match loadBalancerAlgorithm data with
      | val a => val a
      | _ => val (LoadBalancerAlgorithm_value X RandomKeyOnEachConnection)
      end.
Proof.
  destruct (actualSubmit_payload X s data) as (payload & P & L & N & E & Q).
  exists payload. repeat (split; [assumption|]).
  rewrite L. destruct (loadBalancerAlgorithm data); reflexivity.
Qed.

(** X3: the prefix a submission sends is the prefix selected in the
    dropdown (or taken from the record when the dialog opened). *)
Theorem submitted_prefix (s : Sys X) :
  reachable X s ->
  payloads X (calls X (step X s (Submit X))) = payloads X (calls X s) \/
  exists payload,
    payloads X (calls X (step X s (Submit X))) = payloads X (calls X s) ++ [payload] /\
    prefix payload = selectedPrefix X (component X s).
Proof.
  intros Hr. rewrite step_calls. simpl.
  destruct (handleSubmit_cases X s) as [-> | ->]; [left; reflexivity | right].
  destruct (actualSubmit_payload X s (form X (component X s)))
    as (payload & -> & _ & _ & _ & Q).
  exists payload. split; [reflexivity|].
  rewrite Q. apply (reachable_prefix X s Hr).
Qed.

(** X4: with known records, the algorithm a submission sends is the one the
    trigger button shows as selected. *)
Theorem submitted_algorithm (s : Sys X) (a : string) :
  reachable_known X s ->
  narrow (selectedLoadBalancer X (component X s)) = Some a ->
  loadBalancerTrigger X (component X s) = ("Selected algo: " ++ a)%string /\
  (payloads X (calls X (step X s (Submit X))) = payloads X (calls X s) \/
   exists payload,
     payloads X (calls X (step X s (Submit X))) = payloads X (calls X s) ++ [payload] /\
     loadBalancerAlgorithm payload = val a).
Proof.
  intros Hr Hn. split.
  - unfold loadBalancerTrigger. now rewrite Hn.
  - rewrite step_calls. simpl.
    destruct (handleSubmit_cases X s) as [-> | ->]; [left; reflexivity | right].
    destruct (actualSubmit_payload X s (form X (component X s)))
      as (payload & -> & L & _).
    exists payload. split; [reflexivity|]. rewrite L.
    apply reachable_known_algorithm in Hr as (_ & B & _).
    unfold algorithm_bound in B.
    destruct (selectedLoadBalancer X (component X s)) as [| |a0]; try discriminate.
    simpl in Hn. destruct (a0 =? "") eqn:E; try discriminate.
    injection Hn as ->.
    destruct B as [_ [-> | [-> _]]]; [reflexivity | discriminate].
Qed.

(** Unfolds a step from a destructed state. *)
Ltac run_step s :=
  let err := fresh "err" in
  destruct s as [[err ? ? ? ?] [? ?] ? ? ? ? ?];
  unfold synced, step, settle, commit, changed, useEffect_isOpen, useEffect_prefix,
    useEffect_loadBalancerAlgorithm, useEffect_expiresAt, reset_values, deps_of in *;
  simpl in *.

(** X5: opening the dialog without a record always gives the blank form:
    empty error, name and path, the default algorithm, no expiration, no
    prefix and nothing selected, whatever the component held before. *)
Theorem open_without_record_is_blank (s : Sys X) (e : Event X) :
  reachable X s ->
  isOpen X s = false ->
  dynamicAccessKeyData X (props X s) = None ->
  e = Open X \/ e = OpenChange X ->
  component X (step X s e) =
    {| serverError := val "";
       selectedExpirationDate := undefined;
       selectedLoadBalancer := null;
       selectedPrefix := null;
       form := {| id := undefined;
                  name := val "";
                  path := val "";
                  loadBalancerAlgorithm :=
                    val (LoadBalancerAlgorithm_value X RandomKeyOnEachConnection);
                  expiresAt := null;
                  prefix := null |} |}.
Proof.
  intros Hr Ho Hd He. apply reachable_synced in Hr.
  destruct He as [-> | ->]; revert Hr Ho Hd; run_step s;
    intros -> -> ->; simpl; split_ifs; reflexivity.
Qed.


(** The prefix selection after the dialog opened on a record. *)
Lemma open_with_record_selectedPrefix (s : Sys X) (e : Event X)
      (k : DynamicAccessKey (Date X)) :
  synced X s ->
  isOpen X s = false ->
  dynamicAccessKeyData X (props X s) = Some k ->
  e = Open X \/ e = OpenChange X ->
  selectedPrefix X (component X (step X s e)) = js_of_option (key_prefix k).
Proof.
  intros Hr Ho Hd He.
  destruct He as [-> | ->]; revert Hr Ho Hd; run_step s;
    intros -> -> ->; simpl; split_ifs; reflexivity.
Qed.

(** X7: selecting an item of the prefix dropdown never breaks the
    recommended ports block: for the item with the empty key the block is
    not rendered, for any other item of the table it shows the ports of the
    first table entry of that type. *)
Theorem ports_of_selected_item (s : Sys X) (p : AccessKeyPrefix) :
  reachable X s ->
  In p (AccessKeyPrefixes X) ->
  let c := component X (step X s (SelectPrefix X (Some p))) in
  prefix_key X p = "" /\ recommendedPortsPanel X c = None \/
  exists q,
    find (fun x => prefix_type x =? prefix_type p) (AccessKeyPrefixes X) = Some q /\
    prefix_type q = prefix_type p /\
    recommendedPortsPanel X c = Some (inr (recommendedPorts q)).
Proof.
  intros Hr Hp c.
  assert (Hs := reachable_synced X s Hr).
  assert (S : selectedPrefix X c = val (prefix_key X p)).
  { unfold c, step.
    change (dep_selectedPrefix (deps_of X (settle X (handle X (SelectPrefix X (Some p)) s)))
            = val (prefix_key X p)).
    rewrite (settle_selections X s); auto. }
  unfold recommendedPortsPanel. rewrite S. simpl.
  destruct (prefix_key X p =? "") eqn:E.
  - left. apply String.eqb_eq in E. auto.
  - right. unfold prefix_key in *.
    destruct (prefix_type p =? AccessKeyPrefixType_None X);
      [now rewrite String.eqb_refl in E|].
    destruct (find (fun x => prefix_type x =? prefix_type p) (AccessKeyPrefixes X))
      as [q|] eqn:F.
    + exists q. apply find_some in F as [_ F]. apply String.eqb_eq in F. auto.
    + apply find_none with (x := p) in F; auto.
      now rewrite String.eqb_refl in F.
Qed.

(** X8: opening the dialog on a record whose prefix is a non-empty string
    that no table entry has as its type makes the recommended ports block
    throw: [find] returns [undefined] and [recommendedPorts] is read off it. *)
Theorem ports_of_unlisted_prefix (s : Sys X) (e : Event X)
        (k : DynamicAccessKey (Date X)) (p : string) :
  reachable X s ->
  isOpen X s = false ->
  dynamicAccessKeyData X (props X s) = Some k ->
  key_prefix k = Some p ->
  p <> "" ->
  (forall x, In x (AccessKeyPrefixes X) -> prefix_type x <> p) ->
  e = Open X \/ e = OpenChange X ->
  exists error, recommendedPortsPanel X (component X (step X s e)) = Some (inl error).
Proof.
  intros Hr Ho Hd Hk Hp Hn He.
  unfold recommendedPortsPanel.
  rewrite (open_with_record_selectedPrefix s e k); auto using reachable_synced.
  rewrite Hk. simpl.
  apply String.eqb_neq in Hp. rewrite Hp.
  destruct (find (fun x => prefix_type x =? p) (AccessKeyPrefixes X)) as [q|] eqn:F.
  - apply find_some in F as [I F]. apply String.eqb_eq in F.
    now apply Hn in I.
  - eauto.
Qed.

(** X9: the effects cannot keep each other running: from any state, after
    two renders with their commits a further render runs no effect and
    changes nothing. *)
Theorem effects_settle_in_two_renders (s : Sys X) :
  commit X (commit X (commit X s)) = commit X (commit X s).
Proof.
  apply commit_synced. apply (settle_synced X s).
Qed.

(** X10: a submission writes nothing back into the form: the form values
    (the typed path included) and the three selections are after Save what
    they were before, whether the server action returned or threw. *)
Theorem submit_keeps_form (s : Sys X) :
  reachable X s ->
  form X (component X (step X s (Submit X))) = form X (component X s) /\
  selectedExpirationDate X (component X (step X s (Submit X)))
    = selectedExpirationDate X (component X s) /\
  selectedLoadBalancer X (component X (step X s (Submit X)))
    = selectedLoadBalancer X (component X s) /\
  selectedPrefix X (component X (step X s (Submit X))) = selectedPrefix X (component X s).
Proof.
  intros Hr.
  assert (Hs := reachable_synced X s Hr).
  destruct (handleSubmit_frame X s) as (Ff & Fe & Fl & Fp & Fc & _).
  assert (C : component X (step X s (Submit X)) = component X (snd (handleSubmit X s))).
  { unfold step. change (handle X (Submit X) s) with (snd (handleSubmit X s)).
    destruct (handleSubmit_cases X s) as [E | E].
    - rewrite E. now rewrite (settle_idle s).
    - destruct (actualSubmit_component X s (form X (component X s)))
        as (v & _ & [O | O]); rewrite <- E in O.
      + rewrite (settle_idle s); auto.
        unfold deps_of. now rewrite O, Fe, Fl, Fp.
      + now rewrite (settle_closed X s). }
  rewrite C. auto.
Qed.

End Further.

(** A blank new form: Save does nothing, and Cancel reaches no server
    action. *)
Lemma server_called_by_valid_submit_only_witness :
  let X := Demo.X in
  let s := mount X Demo.creating true [] Demo.uuids in
  reachable X s /\
  (component X (step X s (Submit X)) = component X s /\
   isOpen X (step X s (Submit X)) = isOpen X s /\
   calls X (step X s (Submit X)) = calls X s) /\
  payloads X (calls X (step X s (Cancel X))) = payloads X (calls X s).
Proof.
  intros X s.
  assert (Hr : reachable X s) by apply reachable_mount.
  destruct (server_called_by_valid_submit_only X s (Cancel X) Hr) as (A & B & _).
  refine (conj Hr (conj (B (or_introl eq_refl)) (A _))). discriminate.
Defined.

(** Saving the record opened for editing sends its prefix. *)
Lemma submitted_prefix_witness :
  let X := Demo.X in
  let s := mount X Demo.editing true [] Demo.uuids in
  reachable X s /\
  exists payload,
    payloads X (calls X (step X s (Submit X))) = payloads X (calls X s) ++ [payload] /\
    prefix payload = val "TLS ClientHello".
Proof.
  intros X s.
  assert (Hr : reachable X s) by apply reachable_mount.
  split; [exact Hr|].
  destruct (submitted_prefix X s Hr) as [H | H]; [discriminate H | exact H].
Defined.

(** Saving the record opened for editing sends the algorithm on the button. *)
Lemma submitted_algorithm_witness :
  let X := Demo.X in
  let s := mount X Demo.editing true [] Demo.uuids in
  reachable_known X s /\
  loadBalancerTrigger X (component X s) = "Selected algo: UserIpAddress"%string.
Proof.
  intros X s.
  assert (Hr : reachable_known X s).
  { apply known_mount. right. right. left. reflexivity. }
  exact (conj Hr (proj1 (submitted_algorithm X s "UserIpAddress" Hr eq_refl))).
Defined.

(** Reopening for a new key after a cancelled one. *)
Lemma open_without_record_is_blank_witness :
  let X := Demo.X in
  let s := step X (step X (step X (mount X Demo.creating true [] Demo.uuids)
                                (InputName X "home"))
                        (PickDate X (val "2026-05-01")))
                (Cancel X) in
  name (form X (component X s)) = val "home" /\
  name (form X (component X (step X s (Open X)))) = val "" /\
  selectedExpirationDate X (component X (step X s (Open X))) = undefined.
Proof.
  intros X s.
  assert (Hr : reachable X s) by (repeat apply reachable_step; apply reachable_mount).
  assert (H := open_without_record_is_blank X s (Open X) Hr eq_refl eq_refl
                 (or_introl eq_refl)).
  refine (conj eq_refl (conj _ _)); rewrite H; reflexivity.
Defined.


(** Selecting the TLS item shows its two ports. *)
Lemma ports_of_selected_item_witness :
  let X := Demo.X in
  let s := mount X Demo.creating true [] Demo.uuids in
  let c := component X (step X s (SelectPrefix X (Some Demo.tls_prefix))) in
  recommendedPortsPanel X c = Some (inr (recommendedPorts Demo.tls_prefix)).
Proof.
  intros X s c.
  assert (Hr : reachable X s) by apply reachable_mount.
  assert (Hi : In Demo.tls_prefix (AccessKeyPrefixes X)) by (right; left; reflexivity).
  destruct (ports_of_selected_item X s Demo.tls_prefix Hr Hi) as [[K _] | (q & F & _ & P)].
  - discriminate K.
  - injection F as <-. exact P.
Defined.

(** Opening the record with id 9, whose prefix the table does not list. *)
Lemma ports_of_unlisted_prefix_witness :
  let X := Demo.X in
  let s := mount X (Build_Props X (Some Demo.key9) true) false [] Demo.uuids in
  selectedPrefix X (component X (step X s (Open X))) = val "QUIC Initial" /\
  exists error,
    recommendedPortsPanel X (component X (step X s (Open X))) = Some (inl error).
Proof.
  intros X s.
  assert (Hr : reachable X s) by apply reachable_mount.
  split; [reflexivity|].
  apply (ports_of_unlisted_prefix X s (Open X) Demo.key9 "QUIC Initial" Hr
           eq_refl eq_refl eq_refl).
  - discriminate.
  - intros x [<- | [<- | []]]; discriminate.
  - left. reflexivity.
Defined.

(** A create on the path "taken" is refused; the typed path stays. *)
Lemma submit_keeps_form_witness :
  let X := Demo.X in
  let s := step X (step X (mount X Demo.creating true ["taken"] Demo.uuids)
                        (InputName X "home"))
                (InputPath X "taken") in
  errorPanel X (component X (step X s (Submit X)))
    = Some "Error: Unique constraint failed on the fields: (`path`)" /\
  path (form X (component X (step X s (Submit X)))) = val "taken".
Proof.
  intros X s.
  assert (Hr : reachable X s) by (repeat apply reachable_step; apply reachable_mount).
  destruct (submit_keeps_form X s Hr) as (F & _).
  split; [reflexivity|]. rewrite F. reflexivity.
Defined.
